(** * Citation formatter of the chat front-end (src/main.py)

    Shallow embedding of [parse_external_link] and [format_citations].

    Strings are Rocq byte strings: a Python [str] is represented by its
    UTF-8 encoding.  [str.strip] and [int] decode it and use Python's
    Unicode whitespace and decimal digits (Unicode 14, as in CPython
    3.11).

    [format_citations] mutates local Python objects ([formatted_text],
    the [references] dict and [reference_counter]) inside a [try] block;
    it is modelled in a small state and exception monad in which a raised
    exception keeps the state reached at the point of the raise, as in
    Python. *)

From Stdlib Require Import String Ascii List ZArith Bool Lia.
From Stdlib Require Import DecimalString.
Import ListNotations.
Open Scope string_scope.
Open Scope Z_scope.

(** ** Python helpers *)

(** [str.split(c)] with an explicit one-character separator. *)
Fixpoint split_char (c : ascii) (s : string) : list string :=
  match s with
  | EmptyString => [EmptyString]
  | String x r =>
      let rest := split_char c r in
      if Ascii.eqb x c then EmptyString :: rest
      else match rest with
           | h :: t => String x h :: t
           | [] => [String x EmptyString]
           end
  end.

(** [c in s] for a one-character [c]. *)
Fixpoint contains_char (c : ascii) (s : string) : bool :=
  match s with
  | EmptyString => false
  | String x r => Ascii.eqb x c || contains_char c r
  end.

(** ** Characters of a [str]

    A Python [str] is held as its UTF-8 encoding; [code_points] decodes
    it.  A byte that does not start a well-formed sequence (which no
    encoded [str] contains) is read as U+FFFD. *)

Definition byte (c : ascii) : Z := Z.of_nat (nat_of_ascii c).

Definition is_cont (c : ascii) : bool := (128 <=? byte c) && (byte c <? 192).

Fixpoint code_points (s : string) : list Z :=
  match s with
  | EmptyString => []
  | String a r =>
      let n := byte a in
      if n <? 128 then n :: code_points r
      else if (192 <=? n) && (n <? 224) then
        match r with
        | String b r1 =>
            if is_cont b then (n - 192) * 64 + (byte b - 128) :: code_points r1
            else 65533 :: code_points r
        | EmptyString => [65533]
        end
      else if (224 <=? n) && (n <? 240) then
        match r with
        | String b (String c r2) =>
            if is_cont b && is_cont c
            then (n - 224) * 4096 + (byte b - 128) * 64 + (byte c - 128) :: code_points r2
            else 65533 :: code_points r
        | _ => 65533 :: code_points r
        end
      else if (240 <=? n) && (n <? 248) then
        match r with
        | String b (String c (String d r3)) =>
            if is_cont b && is_cont c && is_cont d
            then (n - 240) * 262144 + (byte b - 128) * 4096 + (byte c - 128) * 64
                 + (byte d - 128) :: code_points r3
            else 65533 :: code_points r
        | _ => 65533 :: code_points r
        end
      else 65533 :: code_points r
  end.

Definition ascii_of_Z (n : Z) : ascii := ascii_of_nat (Z.to_nat n).

(** UTF-8 encoding of one code point. *)
Definition utf8_of_code_point (c : Z) : string :=
  if c <? 128 then String (ascii_of_Z c) EmptyString
  else if c <? 2048 then
    String (ascii_of_Z (192 + c / 64)) (String (ascii_of_Z (128 + c mod 64)) EmptyString)
  else if c <? 65536 then
    String (ascii_of_Z (224 + c / 4096))
      (String (ascii_of_Z (128 + (c / 64) mod 64))
         (String (ascii_of_Z (128 + c mod 64)) EmptyString))
  else
    String (ascii_of_Z (240 + c / 262144))
      (String (ascii_of_Z (128 + (c / 4096) mod 64))
         (String (ascii_of_Z (128 + (c / 64) mod 64))
            (String (ascii_of_Z (128 + c mod 64)) EmptyString))).

Fixpoint utf8_encode (l : list Z) : string :=
  match l with
  | [] => EmptyString
  | c :: r => utf8_of_code_point c ++ utf8_encode r
  end.

(** [str.isspace] for one character ([Py_UNICODE_ISSPACE]). *)
Definition py_isspace (c : Z) : bool :=
  ((9 <=? c) && (c <=? 13)) || ((28 <=? c) && (c <=? 32)) || (c =? 0x85) || (c =? 0xA0)
  || (c =? 0x1680) || ((0x2000 <=? c) && (c <=? 0x200A)) || (c =? 0x2028) || (c =? 0x2029)
  || (c =? 0x202F) || (c =? 0x205F) || (c =? 0x3000).

Fixpoint lstrip (l : list Z) : list Z :=
  match l with
  | [] => []
  | c :: r => if py_isspace c then lstrip r else l
  end.

Definition rstrip (l : list Z) : list Z := rev (lstrip (rev l)).

(** [str.strip()] *)
Definition strip (s : string) : string := utf8_encode (rstrip (lstrip (code_points s))).

(** The characters with a decimal value (Unicode category Nd) come in
    runs of ten, from 0 to 9; these are the code points of their zeros. *)
Definition decimal_zeros : list Z :=
  [0x30; 0x660; 0x6F0; 0x7C0; 0x966; 0x9E6; 0xA66; 0xAE6; 0xB66; 0xBE6; 0xC66; 0xCE6;
   0xD66; 0xDE6; 0xE50; 0xED0; 0xF20; 0x1040; 0x1090; 0x17E0; 0x1810; 0x1946; 0x19D0;
   0x1A80; 0x1A90; 0x1B50; 0x1BB0; 0x1C40; 0x1C50; 0xA620; 0xA8D0; 0xA900; 0xA9D0;
   0xA9F0; 0xAA50; 0xABF0; 0xFF10; 0x104A0; 0x10D30; 0x11066; 0x110F0; 0x11136;
   0x111D0; 0x112F0; 0x11450; 0x114D0; 0x11650; 0x116C0; 0x11730; 0x118E0; 0x11950;
   0x11C50; 0x11D50; 0x11DA0; 0x16A60; 0x16AC0; 0x16B50; 0x1D7CE; 0x1D7D8; 0x1D7E2;
   0x1D7EC; 0x1D7F6; 0x1E140; 0x1E2F0; 0x1E950; 0x1FBF0].

(** [Py_UNICODE_TODECIMAL] *)
Fixpoint decimal_of (zeros : list Z) (c : Z) : option Z :=
  match zeros with
  | [] => None
  | z :: r => if (z <=? c) && (c <? z + 10) then Some (c - z) else decimal_of r c
  end.

Definition decimal_value (c : Z) : option Z := decimal_of decimal_zeros c.

(** [_PyUnicode_TransformDecimalAndSpaceToASCII]: characters below 127
    are kept, other whitespace becomes a space and a decimal digit its
    ASCII digit; any other character becomes ['?'] and ends the result. *)
Fixpoint transform_decimal_and_space (l : list Z) : list Z :=
  match l with
  | [] => []
  | c :: r =>
      if c <? 127 then c :: transform_decimal_and_space r
      else if py_isspace c then 32 :: transform_decimal_and_space r
      else match decimal_value c with
           | Some d => 48 + d :: transform_decimal_and_space r
           | None => [63]
           end
  end.

(** [Py_ISSPACE] on an ASCII byte. *)
Definition c_isspace (c : Z) : bool := ((9 <=? c) && (c <=? 13)) || (c =? 32).

Fixpoint skip_space (l : list Z) : list Z :=
  match l with
  | [] => []
  | c :: r => if c_isspace c then skip_space r else l
  end.

Definition digit_value (c : Z) : option Z :=
  if (48 <=? c) && (c <=? 57) then Some (c - 48) else None.

(** The run of digits and single underscores read by [PyLong_FromString]
    in base 10: its value, its number of digits and what follows it.
    [prev_us] says whether the previous character was an underscore (it
    starts [true]: the run may not start with one); a doubled or trailing
    underscore is an error. *)
Fixpoint parse_digits (l : list Z) (acc : Z) (ndigits : nat) (prev_us : bool)
    : option (Z * nat * list Z) :=
  match l with
  | [] => if prev_us then None else Some (acc, ndigits, [])
  | c :: r =>
      match digit_value c with
      | Some d => parse_digits r (10 * acc + d) (S ndigits) false
      | None =>
          if c =? 95 then (if prev_us then None else parse_digits r acc ndigits true)
          else if prev_us then None else Some (acc, ndigits, l)
      end
  end.

(** [sys.get_int_max_str_digits()] at its default. *)
Definition max_str_digits : nat := 4300.

(** [PyLong_FromString(s, &end, 10)] followed by the check that [end] is
    the end of the buffer: leading whitespace, an optional sign, the
    digits (at most [max_str_digits] of them), trailing whitespace. *)
Definition int_of_str (l : list Z) : option Z :=
  let l1 := skip_space l in
  let '(sign, l2) :=
    match l1 with
    | 45 :: r => (-1, r)
    | 43 :: r => (1, r)
    | _ => (1, l1)
    end in
  match parse_digits l2 0 0 true with
  | Some (v, n, rest) =>
      if (n =? 0)%nat then None
      else if (max_str_digits <? n)%nat then None
      else match skip_space rest with
           | [] => Some (sign * v)
           | _ => None
           end
  | None => None
  end.

(** [int(s)] for a [str] ([PyLong_FromUnicodeObject]). *)
Definition py_int_value (s : string) : option Z :=
  int_of_str (transform_decimal_and_space (code_points s)).

(** [str(n)] for a Python [int]. *)
Definition py_str (n : Z) : string := NilZero.string_of_int (Z.to_int n).

(** [sep.join(l)] *)
Definition join (sep : string) (l : list string) : string := String.concat sep l.

Definition nl : string := String (ascii_of_nat 10) EmptyString.

(** ** [urllib.parse.quote(url, safe=':/')] on the UTF-8 bytes of [url] *)

Definition in_range (lo hi : nat) (c : ascii) : bool :=
  let n := nat_of_ascii c in ((lo <=? n) && (n <=? hi))%nat.

(** [_ALWAYS_SAFE]: ASCII letters, digits and [_.-~]. *)
Definition always_safe (c : ascii) : bool :=
  in_range 65 90 c || in_range 97 122 c || in_range 48 57 c
  || Ascii.eqb c "_" || Ascii.eqb c "." || Ascii.eqb c "-" || Ascii.eqb c "~".

Definition quote_safe (c : ascii) : bool :=
  always_safe c || Ascii.eqb c ":" || Ascii.eqb c "/".

(** ['%{:02X}'] digit *)
Definition hex_digit (n : nat) : ascii :=
  if (n <? 10)%nat then ascii_of_nat (48 + n) else ascii_of_nat (55 + n).

Definition quote_char (c : ascii) : string :=
  if quote_safe c then String c EmptyString
  else let n := nat_of_ascii c in
       String "%" (String (hex_digit (n / 16)) (String (hex_digit (n mod 16)) EmptyString)).

Fixpoint quote (s : string) : string :=
  match s with
  | EmptyString => EmptyString
  | String c r => quote_char c ++ quote r
  end.

(** ** [parse_external_link] *)

(** [re.match(r'^(gs)://', url)]: group 1 of the match, if any. *)
Definition protocol_of (url : string) : option string :=
  if String.prefix "gs://" url then Some "gs" else None.

(** [re.sub(r'^(gs)://', 'https://storage.cloud.google.com/', url)]: the
    anchored pattern can only match at position 0. *)
Definition sub_gs_prefix (url : string) : string :=
  if String.prefix "gs://" url
  then "https://storage.cloud.google.com/" ++ substring 5 (String.length url - 5) url
  else url.

Definition parse_external_link (url : string) : string :=
  if String.eqb url "" then url
  else match protocol_of url with
       | Some p => if String.eqb p "gs" then sub_gs_prefix url else url
       | None => url
       end.

(** ** State and exceptions of [format_citations] *)

(** A reference object returned by the backend: only [.uri] is read. *)
Record SourceRef := mkSourceRef { uri : string }.

Inductive exn := ValueError | IndexError.

(** The local variables mutated by [format_citations]; the [references]
    dict is an association list in insertion order. *)
Record State := mkState {
  formatted_text : string;
  references : list (Z * string);
  reference_counter : Z }.

Inductive outcome (A : Type) :=
| Done (a : A) (s : State)
| Raised (e : exn) (s : State).
Arguments Done {A}.
Arguments Raised {A}.

Definition M (A : Type) : Type := State -> outcome A.

Definition ret {A} (a : A) : M A := fun s => Done a s.
Definition bind {A B} (m : M A) (k : A -> M B) : M B :=
  fun s => match m s with
           | Done a s' => k a s'
           | Raised e s' => Raised e s'
           end.
Definition raise {A} (e : exn) : M A := fun s => Raised e s.
Definition get : M State := fun s => Done s s.
Definition put (s' : State) : M unit := fun _ => Done tt s'.

Notation "x <- m ;; k" := (bind m (fun x => k))
  (at level 61, m at next level, right associativity).
Notation "m ;; k" := (bind m (fun _ : unit => k))
  (at level 61, right associativity).

(** [try: m except ValueError: h]: the handler starts from the state
    reached when the exception was raised. *)
Definition try_except_ValueError (m : M unit) (h : M unit) : M unit :=
  fun s => match m s with
           | Raised ValueError s' => h s'
           | o => o
           end.

Fixpoint mapM {A B} (f : A -> M B) (l : list A) : M (list B) :=
  match l with
  | [] => ret []
  | x :: r => y <- f x ;; ys <- mapM f r ;; ret (y :: ys)
  end.

Fixpoint for_each {A} (l : list A) (f : A -> M unit) : M unit :=
  match l with
  | [] => ret tt
  | x :: r => f x ;; for_each r f
  end.

(** [int(s)] *)
Definition py_int (s : string) : M Z :=
  match py_int_value s with
  | Some z => ret z
  | None => raise ValueError
  end.

(** [l[i]] with Python's negative indices and [IndexError]. *)
Definition py_index {A} (l : list A) (i : Z) : M A :=
  let n := Z.of_nat (length l) in
  let j := if i <? 0 then n + i else i in
  if (0 <=? j) && (j <? n) then
    match nth_error l (Z.to_nat j) with
    | Some x => ret x
    | None => raise IndexError
    end
  else raise IndexError.

(** [formatted_text += t] *)
Definition append_text (t : string) : M unit :=
  s <- get ;;
  put (mkState (formatted_text s ++ t) (references s) (reference_counter s)).

(** [url in d.values()] *)
Definition in_values (url : string) (d : list (Z * string)) : bool :=
  existsb (String.eqb url) (map snd d).

(** [d[k] = v]: update in place if [k] is a key, else append. *)
Definition dict_set (k : Z) (v : string) (d : list (Z * string)) : list (Z * string) :=
  if existsb (fun '(k', _) => Z.eqb k k') d
  then map (fun '(k', v') => if Z.eqb k k' then (k', v) else (k', v')) d
  else (d ++ [(k, v)])%list.

(** [for ref_id, ref_url in d.items(): if ref_url == url: ...; break] *)
Fixpoint first_key_of (url : string) (d : list (Z * string)) : option Z :=
  match d with
  | [] => None
  | (k, v) :: r => if String.eqb v url then Some k else first_key_of url r
  end.

(** ** [format_citations] *)

(** [for ref_num in ref_numbers: ...] (lines 72-87); the list
    [citation_numbers] is threaded through the loop. *)
Fixpoint cite_loop (urls : list SourceRef) (ref_numbers : list Z)
    (citation_numbers : list string) : M (list string) :=
  match ref_numbers with
  | [] => ret citation_numbers
  | ref_num :: rest =>
      cn <- (if (ref_num <=? Z.of_nat (length urls)) && (ref_num >? 0) then
               r <- py_index urls (ref_num - 1) ;;
               let url := parse_external_link (uri r) in
               st <- get ;;
               if negb (in_values url (references st)) then
                 put (mkState (formatted_text st)
                        (dict_set (reference_counter st) url (references st))
                        (reference_counter st)) ;;
                 st' <- get ;;
                 put (mkState (formatted_text st') (references st')
                        (reference_counter st' + 1)) ;;
                 ret (citation_numbers ++ [py_str (reference_counter st)])%list
               else
                 ret (match first_key_of url (references st) with
                      | Some ref_id => (citation_numbers ++ [py_str ref_id])%list
                      | None => citation_numbers
                      end)
             else ret citation_numbers) ;;
      cite_loop urls rest cn
  end.

(** One iteration of [for part in parts[1:]] (lines 62-98). *)
Definition process_part (urls : list SourceRef) (part : string) : M unit :=
  if contains_char "]" part then
    reference_str <- py_index (split_char "]" part) 0 ;;
    try_except_ValueError
      (ref_numbers <- mapM (fun ref => py_int (strip ref)) (split_char "," reference_str) ;;
       citation_numbers <- cite_loop urls ref_numbers [] ;;
       match citation_numbers with
       | _ :: _ =>
           tail <- py_index (split_char "]" part) 1 ;;
           append_text ("[" ++ join ", " citation_numbers ++ "]" ++ tail)
       | [] =>
           tail <- py_index (split_char "]" part) 1 ;;
           append_text ("[" ++ reference_str ++ "]" ++ tail)
       end)
      (append_text ("[" ++ part))
  else append_text ("[" ++ part).

Definition references_heading : string := nl ++ nl ++ "**References:**" ++ nl.

(** One line of the references list (line 106). *)
Definition reference_line (entry : Z * string) : M unit :=
  let '(ref_id, url) := entry in
  let encoded_url := quote url in
  append_text ("[" ++ py_str ref_id ++ "] " ++ encoded_url ++ nl).

(** Lines 100-106. *)
Definition references_list : M unit :=
  st <- get ;;
  match references st with
  | [] => ret tt
  | refs => append_text references_heading ;; for_each refs reference_line
  end.

(** Lines 52-98: the text loop. *)
Definition format_loop (text : string) (urls : list SourceRef) : M unit :=
  let parts := split_char "[" text in
  first <- py_index parts 0 ;;
  st <- get ;;
  put (mkState first (references st) (reference_counter st)) ;;
  for_each (tl parts) (process_part urls).

(** [references = {}], [reference_counter = 1]; [formatted_text] is not
    bound yet and is set from [parts[0]]. *)
Definition init_state : State := mkState "" [] 1.

Inductive py_result := Ok (s : string) | Error (e : exn).

Definition format_citations (text : string) (urls : list SourceRef) : py_result :=
  match (format_loop text urls ;; references_list) init_state with
  | Done _ s => Ok (formatted_text s)
  | Raised e _ => Error e
  end.

(** State at the end of the text loop (before the references list). *)
Definition loop_state (text : string) (urls : list SourceRef) : State :=
  match format_loop text urls init_state with
  | Done _ s => s
  | Raised _ s => s
  end.

(** ** Views of the run used in the statements *)

(** [1 <= n <= len(urls)] (line 73). *)
Definition valid_index (urls : list SourceRef) (n : Z) : bool :=
  (n <=? Z.of_nat (length urls)) && (n >? 0).

(** [parse_external_link(urls[n - 1].uri)] for a valid [n] (line 75). *)
Definition resolve (urls : list SourceRef) (n : Z) : string :=
  parse_external_link (uri (nth (Z.to_nat (n - 1)) urls (mkSourceRef ""))).

(** The normalized URLs of the valid indices of one marker, in order. *)
Definition valid_urls_of (urls : list SourceRef) (nums : list Z) : list string :=
  map (resolve urls) (filter (valid_index urls) nums).

Fixpoint traverse_option {A B} (f : A -> option B) (l : list A) : option (list B) :=
  match l with
  | [] => Some []
  | x :: r =>
      match f x, traverse_option f r with
      | Some y, Some ys => Some (y :: ys)
      | _, _ => None
      end
  end.

(** The bracket content of a tail segment: its integers when the segment
    holds a [']'] and every comma-separated token parses (line 68). *)
Definition parse_marker (part : string) : option (list Z) :=
  if contains_char "]" part
  then traverse_option (fun r => py_int_value (strip r))
         (split_char "," (hd EmptyString (split_char "]" part)))
  else None.

Definition marker_urls (urls : list SourceRef) (part : string) : list string :=
  match parse_marker part with
  | Some nums => valid_urls_of urls nums
  | None => []
  end.

Definition parts_urls (urls : list SourceRef) (parts : list string) : list string :=
  concat (map (marker_urls urls) parts).

(** Every valid reference of the text, left to right. *)
Definition text_urls (text : string) (urls : list SourceRef) : list string :=
  parts_urls urls (tl (split_char "[" text)).

(** First-seen deduplication, extending [D]. *)
Fixpoint dedup_from (D vs : list string) : list string :=
  match vs with
  | [] => D
  | u :: r => dedup_from (if existsb (String.eqb u) D then D else (D ++ [u])%list) r
  end.

Definition dedup (vs : list string) : list string := dedup_from [] vs.

(** [(k, u0); (k+1, u1); ...] *)
Fixpoint numbered (k : Z) (D : list string) : list (Z * string) :=
  match D with
  | [] => []
  | u :: r => (k, u) :: numbered (k + 1) r
  end.

Fixpoint position (u : string) (D : list string) : nat :=
  match D with
  | [] => O
  | v :: r => if String.eqb v u then O else S (position u r)
  end.

(** The number of [u] when URLs are numbered from 1 in the order of [D]. *)
Definition assigned (u : string) (D : list string) : Z := Z.of_nat (position u D) + 1.

(** [references] and [reference_counter] number the URLs of [D]. *)
Definition table_inv (s : State) (D : list string) : Prop :=
  references s = numbered 1 D /\
  reference_counter s = Z.of_nat (length D) + 1 /\ NoDup D.

(** State after [parts[0]] and the first [length pre] tail segments. *)
Definition state_before (text : string) (urls : list SourceRef) (pre : list string) : State :=
  match for_each pre (process_part urls)
          (mkState (hd EmptyString (split_char "[" text)) [] 1) with
  | Done _ s => s
  | Raised _ s => s
  end.

(** Text of one line of the references list. *)
Definition reference_entry (entry : Z * string) : string :=
  let '(ref_id, url) := entry in "[" ++ py_str ref_id ++ "] " ++ quote url ++ nl.

(** Hex digit value for percent-decoding ([0-9A-Fa-f]). *)
Definition hex_value (c : ascii) : option nat :=
  let n := nat_of_ascii c in
  if in_range 48 57 c then Some (n - 48)%nat
  else if in_range 65 70 c then Some (n - 55)%nat
  else if in_range 97 102 c then Some (n - 87)%nat
  else None.

(** Percent-decoding, the inverse direction of [quote]. *)
Fixpoint unquote (s : string) : string :=
  match s with
  | EmptyString => EmptyString
  | String c t =>
      if Ascii.eqb c "%" then
        match t with
        | String h (String l r) =>
            match hex_value h, hex_value l with
            | Some a, Some b => String (ascii_of_nat (16 * a + b)%nat) (unquote r)
            | _, _ => String c (unquote t)
            end
        | _ => String c (unquote t)
        end
      else String c (unquote t)
  end.


(** ** Chat handlers ([on_chat_start], [on_new_conversation], [on_message])

    The handlers keep the active conversation name in two places: the
    per-user [cl.user_session] ("conversation") and the process-wide
    [GLOBAL_CONVERSATION_NAME].  The backend calls
    ([initialize_conversation], [converse_conversation]) are inputs of the
    model: what the call returns, or the message of the exception it
    raises.  Every call made is recorded in order, and every message sent
    is recorded with its type and actions; sending a message is taken to
    succeed. *)
Module App.

Inductive call :=
| CreateConversation
| ConverseConversation (name query : string).

Inductive ext (A : Type) :=
| Returned (a : A)
| Failed (err : string).
Arguments Returned {A}.
Arguments Failed {A}.

(** The parts of a [ConverseConversationResponse] read by [on_message]:
    [reply.summary.summary_text] and
    [reply.summary.summary_with_metadata.references]; [None] when reading
    the latter raises [AttributeError]. *)
Record Response := mkResponse {
  summary_text : string;
  summary_references : option (list SourceRef) }.

Inductive msg_type := MsgAssistant | MsgSystem | MsgError.

Record Message := mkMessage {
  content : string;
  msg_kind : msg_type;
  actions : list string }.

Record AppState := mkAppState {
  session_conversation : option string;
  global_conversation : option string }.

Record Outcome := mkOutcome {
  final_state : AppState;
  calls : list call;
  sent : list Message }.

(** [not x] for an optional [str]: [None] and [""] are falsy. *)
Definition falsy (o : option string) : bool :=
  match o with
  | None => true
  | Some s => String.eqb s ""
  end.

Definition welcome_text : string :=
  "Welcome to the Document Search Assistant. How can I help you today?".
Definition restart_text : string :=
  "Started a new conversation. What would you like to search for?".

(** [on_chat_start]: create a conversation and store its name in the
    global variable and the session. *)
Definition on_chat_start (create : ext string) (st : AppState) : Outcome :=
  match create with
  | Returned name =>
      mkOutcome (mkAppState (Some name) (Some name)) [CreateConversation]
        [mkMessage welcome_text MsgSystem []]
  | Failed e =>
      mkOutcome st [CreateConversation]
        [mkMessage ("Failed to initialize conversation: " ++ e) MsgError []]
  end.

(** The [new_conversation] action callback. *)
Definition on_new_conversation (create : ext string) (st : AppState) : Outcome :=
  match create with
  | Returned name =>
      mkOutcome (mkAppState (Some name) (Some name)) [CreateConversation]
        [mkMessage restart_text MsgSystem []]
  | Failed e =>
      mkOutcome st [CreateConversation]
        [mkMessage ("Failed to start new conversation: " ++ e) MsgError []]
  end.

(** [str(e)] for the exceptions of the model of [format_citations]; they
    are never raised there. *)
Definition exn_message (e : exn) : string :=
  match e with
  | ValueError => "invalid literal for int() with base 10"
  | IndexError => "list index out of range"
  end.

(** The [try] block of [on_message] after the conversation name is known:
    the query, the formatting of the reply and the reply message with the
    [new_conversation] action. *)
Definition search (st : AppState) (cs : list call) (name text : string)
    (converse : string -> string -> ext Response) : Outcome :=
  let cs' := (cs ++ [ConverseConversation name text])%list in
  match converse name text with
  | Failed e => mkOutcome st cs' [mkMessage ("Search failed: " ++ e) MsgError []]
  | Returned r =>
      let formatted :=
        match summary_references r with
        | Some refs =>
            match format_citations (summary_text r) refs with
            | Ok c => Returned c
            | Error e => Failed (exn_message e)
            end
        | None => Returned (summary_text r)
        end in
      match formatted with
      | Returned c => mkOutcome st cs' [mkMessage c MsgAssistant ["new_conversation"]]
      | Failed e => mkOutcome st cs' [mkMessage ("Search failed: " ++ e) MsgError []]
      end
  end.

(** [on_message]: the session name, else the global one, else a new
    conversation. *)
Definition on_message (text : string) (create : ext string)
    (converse : string -> string -> ext Response) (st : AppState) : Outcome :=
  let conversation_name :=
    if falsy (session_conversation st) then global_conversation st
    else session_conversation st in
  if falsy conversation_name then
    match create with
    | Returned name =>
        search (mkAppState (Some name) (Some name)) [CreateConversation] name text converse
    | Failed e =>
        mkOutcome st [CreateConversation]
          [mkMessage ("Failed to initialize conversation: " ++ e) MsgError []]
    end
  else
    match conversation_name with
    | Some name => search st [] name text converse
    | None => mkOutcome st [] []  (* unreachable: a truthy name is [Some _] *)
    end.

End App.

(** ** Tests *)

(** [int()] accepts signs, underscores between digits and surrounding
    whitespace; [-1] and [10] are out of range here, [+2] is valid. *)
Example ex_signs_and_underscores :
  format_citations "a [-1] b [ 1_0 , +2]" [mkSourceRef "https://x"; mkSourceRef "y"]
  = Ok ("a [-1] b [1]" ++ references_heading ++ "[1] y" ++ nl).
Proof. reflexivity. Qed.

(** [str.strip] removes Unicode whitespace (here U+00A0, encoded as the
    bytes 194 160) and [int] reads decimal digits of any script (here
    U+0661, ARABIC-INDIC DIGIT ONE). *)
Example ex_unicode_space_and_digit :
  format_citations
    ("a [" ++ String (ascii_of_nat 194) (String (ascii_of_nat 160) EmptyString) ++ "١] b [ 2 ] c")
    [mkSourceRef "gs://b/x"; mkSourceRef "https://y"]
  = Ok ("a [1] b [2] c" ++ references_heading ++ "[1] https://storage.cloud.google.com/b/x"
        ++ nl ++ "[2] https://y" ++ nl).
Proof. reflexivity. Qed.

(** [int] refuses more than 4300 digits, leading zeros included. *)
Example ex_digit_limit :
  py_int_value (string_of_list_ascii (repeat "0"%char 4299 ++ ["7"%char])%list) = Some 7 /\
  py_int_value (string_of_list_ascii (repeat "0"%char 4300 ++ ["7"%char])%list) = None.
Proof. split; vm_compute; reflexivity. Qed.

(** ** Lemmas on the citation table *)

Lemma existsb_eqb_In (u : string) (D : list string) :
  existsb (String.eqb u) D = true <-> In u D.
Proof.
  rewrite existsb_exists. split.
  - intros [x [Hx He]]. apply String.eqb_eq in He. now subst.
  - intros H. exists u. split; [exact H | apply String.eqb_refl].
Qed.

Lemma numbered_app (k : Z) (D : list string) (u : string) :
  numbered k (D ++ [u]) = (numbered k D ++ [(k + Z.of_nat (length D), u)])%list.
Proof.
  revert k. induction D as [|v D IH]; intros k; simpl.
  - now rewrite Z.add_0_r.
  - rewrite IH. replace (k + 1 + Z.of_nat (length D)) with (k + Z.of_nat (S (length D)))
      by lia. reflexivity.
Qed.

Lemma numbered_keys (k k' : Z) (v : string) (D : list string) :
  In (k', v) (numbered k D) -> k <= k' < k + Z.of_nat (length D).
Proof.
  revert k. induction D as [|w D IH]; intros k H; simpl in H.
  - contradiction.
  - destruct H as [H | H].
    + inversion H; subst. simpl length. lia.
    + apply IH in H. simpl length. lia.
Qed.

Lemma map_snd_numbered (k : Z) (D : list string) : map snd (numbered k D) = D.
Proof.
  revert k. induction D as [|v D IH]; intros k; simpl; [reflexivity | now rewrite IH].
Qed.

Lemma dict_set_fresh (k : Z) (v : string) (d : list (Z * string)) :
  (forall k' v', In (k', v') d -> k' <> k) -> dict_set k v d = (d ++ [(k, v)])%list.
Proof.
  intros H. unfold dict_set.
  replace (existsb (fun '(k', _) => Z.eqb k k') d) with false; [reflexivity|].
  symmetry. apply Bool.not_true_iff_false. rewrite existsb_exists.
  intros [[k' v'] [Hin Heq]]. apply Z.eqb_eq in Heq. subst. eapply H; eauto.
Qed.

Lemma in_values_numbered (u : string) (k : Z) (D : list string) :
  in_values u (numbered k D) = existsb (String.eqb u) D.
Proof. unfold in_values. now rewrite map_snd_numbered. Qed.

Lemma first_key_numbered (u : string) (k : Z) (D : list string) :
  In u D -> first_key_of u (numbered k D) = Some (k + Z.of_nat (position u D)).
Proof.
  revert k. induction D as [|v D IH]; intros k H; simpl in *; [contradiction|].
  destruct (String.eqb v u) eqn:E.
  - f_equal. lia.
  - apply String.eqb_neq in E. destruct H as [H | H]; [contradiction|].
    rewrite IH by exact H. f_equal. lia.
Qed.

Lemma position_app (u : string) (D X : list string) :
  In u D -> position u (D ++ X) = position u D.
Proof.
  induction D as [|v D IH]; simpl; intros H; [contradiction|].
  destruct (String.eqb v u) eqn:E; [reflexivity|].
  apply String.eqb_neq in E. destruct H; [contradiction|]. now rewrite IH.
Qed.

Lemma position_last (u : string) (D : list string) :
  ~ In u D -> position u (D ++ [u]) = length D.
Proof.
  induction D as [|v D IH]; simpl; intros H.
  - now rewrite String.eqb_refl.
  - destruct (String.eqb v u) eqn:E.
    + apply String.eqb_eq in E. exfalso. auto.
    + rewrite IH; auto.
Qed.

Lemma dedup_from_prefix (D vs : list string) : exists X, dedup_from D vs = (D ++ X)%list.
Proof.
  revert D. induction vs as [|u vs IH]; intros D; simpl.
  - exists []. now rewrite app_nil_r.
  - destruct (existsb (String.eqb u) D).
    + apply IH.
    + destruct (IH (D ++ [u])%list) as [X HX]. rewrite HX.
      exists (u :: X). now rewrite <- app_assoc.
Qed.

Lemma dedup_from_app (D a b : list string) :
  dedup_from D (a ++ b) = dedup_from (dedup_from D a) b.
Proof. revert D. induction a as [|u a IH]; intros D; simpl; auto. Qed.

Lemma dedup_from_nodup (D vs : list string) : NoDup D -> NoDup (dedup_from D vs).
Proof.
  revert D. induction vs as [|u vs IH]; intros D H; simpl; [exact H|].
  apply IH. destruct (existsb (String.eqb u) D) eqn:E; [exact H|].
  apply NoDup_app; auto using NoDup_cons, NoDup_nil.
  - intros x Hx Hy. destruct Hy as [Hy | []]. subst.
    apply Bool.not_true_iff_false in E. apply E. now apply existsb_eqb_In.
Qed.

Lemma dedup_from_In (D vs : list string) (u : string) :
  In u vs -> In u (dedup_from D vs).
Proof.
  revert D. induction vs as [|v vs IH]; intros D H; simpl in *; [contradiction|].
  destruct H as [H | H]; [subst | now apply IH].
  destruct (dedup_from_prefix (if existsb (String.eqb u) D then D else (D ++ [u])%list) vs)
    as [X HX].
  rewrite HX. apply in_or_app. left.
  destruct (existsb (String.eqb u) D) eqn:E.
  - now apply existsb_eqb_In.
  - apply in_or_app. right. now left.
Qed.

(** ** Lemmas on the monadic run *)

Lemma py_index_in_range {A} (l : list A) (i : Z) (d : A) (s : State) :
  0 <= i < Z.of_nat (length l) -> py_index l i s = Done (nth (Z.to_nat i) l d) s.
Proof.
  intros H. unfold py_index.
  replace (i <? 0) with false by (symmetry; apply Z.ltb_ge; lia).
  replace ((0 <=? i) && (i <? Z.of_nat (length l))) with true
    by (symmetry; apply andb_true_iff; split; [apply Z.leb_le | apply Z.ltb_lt]; lia).
  rewrite (nth_error_nth' l d) by lia. reflexivity.
Qed.

Lemma valid_index_bounds (urls : list SourceRef) (n : Z) :
  valid_index urls n = true -> 0 <= n - 1 < Z.of_nat (length urls).
Proof.
  unfold valid_index. rewrite andb_true_iff, Z.leb_le, Z.gtb_lt. lia.
Qed.

Lemma cite_loop_spec (urls : list SourceRef) (nums : list Z) :
  forall (cn : list string) (s : State) (D : list string),
  table_inv s D ->
  cite_loop urls nums cn s =
    Done (cn ++ map (fun u => py_str (assigned u (dedup_from D (valid_urls_of urls nums))))
                   (valid_urls_of urls nums))%list
         (mkState (formatted_text s) (numbered 1 (dedup_from D (valid_urls_of urls nums)))
            (Z.of_nat (length (dedup_from D (valid_urls_of urls nums))) + 1)).
Proof.
  induction nums as [|n nums IH]; intros cn s D [Href [Hcnt Hnd]].
  - simpl. rewrite app_nil_r. destruct s; simpl in *. now subst.
  - simpl cite_loop. unfold bind at 1.
    unfold valid_urls_of. simpl filter.
    fold (valid_index urls n).
    destruct (valid_index urls n) eqn:Hv.
    + pose proof (valid_index_bounds urls n Hv) as Hb.
      unfold bind at 1. rewrite (py_index_in_range urls (n - 1) (mkSourceRef "")) by exact Hb.
      fold (resolve urls n). simpl map.
      unfold bind, get, put, ret; cbv beta iota.
      rewrite Href, in_values_numbered.
      fold (valid_urls_of urls nums).
      set (u := resolve urls n) in *.
      destruct (existsb (String.eqb u) D) eqn:Hin; cbn [negb]; cbv beta iota.
      * assert (Hd : dedup_from D (u :: valid_urls_of urls nums)
                     = dedup_from D (valid_urls_of urls nums))
          by (simpl; now rewrite Hin).
        apply existsb_eqb_In in Hin.
        rewrite (first_key_numbered _ _ _ Hin). cbv beta iota.
        rewrite (IH _ s D) by (repeat split; auto).
        assert (Ha : assigned u (dedup_from D (valid_urls_of urls nums))
                     = 1 + Z.of_nat (position u D)).
        { destruct (dedup_from_prefix D (valid_urls_of urls nums)) as [X HX].
          unfold assigned. rewrite HX, position_app by exact Hin. lia. }
        rewrite Hd, Ha, <- app_assoc. reflexivity.
      * assert (Hd : dedup_from D (u :: valid_urls_of urls nums)
                     = dedup_from (D ++ [u]) (valid_urls_of urls nums))
          by (simpl; now rewrite Hin).
        assert (Hnin : ~ In u D)
          by (intros H; apply existsb_eqb_In in H; congruence).
        rewrite Hcnt, dict_set_fresh.
        2:{ intros k' v' Hk. apply numbered_keys in Hk. lia. }
        replace (Z.of_nat (length D) + 1) with (1 + Z.of_nat (length D)) by lia.
        rewrite <- numbered_app. cbv beta iota. cbn [formatted_text references reference_counter].
        rewrite (IH _ _ (D ++ [u])%list).
        2:{ split; [reflexivity | split]; cbn [reference_counter].
            - rewrite length_app. cbn [length]. lia.
            - apply NoDup_app; auto using NoDup_cons, NoDup_nil.
              intros x Hx [Hy | []]. subst. contradiction. }
        assert (Ha : assigned u (dedup_from (D ++ [u]) (valid_urls_of urls nums))
                     = 1 + Z.of_nat (length D)).
        { destruct (dedup_from_prefix (D ++ [u]) (valid_urls_of urls nums)) as [X HX].
          unfold assigned. rewrite HX, position_app, position_last by
            (auto; apply in_or_app; right; now left). lia. }
        rewrite Hd, Ha, <- app_assoc. reflexivity.
    + apply IH. repeat split; auto.
Qed.

Lemma mapM_py_int (l : list string) (s : State) :
  mapM (fun ref => py_int (strip ref)) l s =
    match traverse_option (fun r => py_int_value (strip r)) l with
    | Some nums => Done nums s
    | None => Raised ValueError s
    end.
Proof.
  induction l as [|x l IH]; [reflexivity|].
  simpl. unfold py_int at 1.
  destruct (py_int_value (strip x)); [|reflexivity].
  cbv [bind ret raise]. rewrite IH.
  destruct (traverse_option (fun r => py_int_value (strip r)) l); reflexivity.
Qed.

Lemma split_char_not_nil (c : ascii) (s : string) : split_char c s <> [].
Proof.
  destruct s as [|x r]; simpl; [discriminate|].
  destruct (Ascii.eqb x c); [discriminate|].
  destruct (split_char c r); discriminate.
Qed.

Lemma split_char_contains (c : ascii) (s : string) :
  contains_char c s = true -> (2 <= length (split_char c s))%nat.
Proof.
  induction s as [|x r IH]; simpl; [discriminate|].
  destruct (Ascii.eqb x c) eqn:E; simpl.
  - intros _. pose proof (split_char_not_nil c r).
    destruct (split_char c r); [contradiction | simpl; lia].
  - intros H. specialize (IH H).
    destruct (split_char c r); simpl in *; lia.
Qed.

Lemma append_text_run (t : string) (s : State) :
  append_text t s = Done tt (mkState (formatted_text s ++ t) (references s) (reference_counter s)).
Proof. reflexivity. Qed.

Lemma py_index_head (c : ascii) (part : string) (s : State) :
  py_index (split_char c part) 0 s = Done (hd EmptyString (split_char c part)) s.
Proof.
  pose proof (split_char_not_nil c part).
  destruct (split_char c part) as [|h t] eqn:E; [contradiction|].
  rewrite (py_index_in_range _ 0 EmptyString); [reflexivity|].
  simpl. lia.
Qed.

(** A segment without [']'] is copied with its ['['] (line 98). *)
Lemma process_part_no_bracket (urls : list SourceRef) (part : string) (s : State) :
  contains_char "]" part = false ->
  process_part urls part s =
    Done tt (mkState (formatted_text s ++ "[" ++ part) (references s) (reference_counter s)).
Proof. intros H. unfold process_part. rewrite H. apply append_text_run. Qed.

(** A segment whose bracket content fails [int()] is copied with its
    ['['] (lines 94-96). *)
Lemma process_part_parse_error (urls : list SourceRef) (part : string) (s : State) :
  contains_char "]" part = true -> parse_marker part = None ->
  process_part urls part s =
    Done tt (mkState (formatted_text s ++ "[" ++ part) (references s) (reference_counter s)).
Proof.
  intros Hc Hp. unfold parse_marker in Hp. rewrite Hc in Hp.
  unfold process_part. rewrite Hc. unfold bind at 1. rewrite py_index_head.
  unfold try_except_ValueError. unfold bind at 1. rewrite mapM_py_int, Hp.
  apply append_text_run.
Qed.

(** A segment whose bracket content parses (lines 68-93). *)
Lemma process_part_marker (urls : list SourceRef) (part : string) (nums : list Z)
    (s : State) (D : list string) :
  table_inv s D -> parse_marker part = Some nums ->
  let D' := dedup_from D (valid_urls_of urls nums) in
  let rest := nth 1 (split_char "]" part) EmptyString in
  process_part urls part s =
    Done tt (mkState
      (formatted_text s ++
        match valid_urls_of urls nums with
        | [] => "[" ++ hd EmptyString (split_char "]" part) ++ "]" ++ rest
        | vs => "[" ++ join ", " (map (fun u => py_str (assigned u D')) vs) ++ "]" ++ rest
        end)
      (numbered 1 D') (Z.of_nat (length D') + 1)).
Proof.
  intros Hinv Hp D' rest.
  unfold parse_marker in Hp.
  destruct (contains_char "]" part) eqn:Hc; [|discriminate].
  unfold process_part. rewrite Hc. unfold bind at 1. rewrite py_index_head.
  unfold try_except_ValueError. unfold bind at 1. rewrite mapM_py_int, Hp.
  unfold bind at 1. rewrite (cite_loop_spec urls nums [] s D Hinv). simpl app.
  fold D'.
  pose proof (split_char_contains "]" part Hc) as Hlen.
  unfold bind.
  destruct (valid_urls_of urls nums) as [|u vs]; cbn [app map]; cbv beta iota;
    rewrite (py_index_in_range _ 1 EmptyString) by lia; reflexivity.
Qed.

Lemma string_app_assoc (a b c : string) : a ++ (b ++ c) = (a ++ b) ++ c.
Proof. induction a as [|x a IH]; simpl; [reflexivity | now rewrite IH]. Qed.

Lemma string_app_nil_r (a : string) : a ++ "" = a.
Proof. induction a as [|x a IH]; simpl; [reflexivity | now rewrite IH]. Qed.

Lemma table_inv_numbered (s : State) (D : list string) :
  table_inv s D ->
  s = mkState (formatted_text s) (numbered 1 D) (Z.of_nat (length D) + 1).
Proof. intros [H1 [H2 _]]. destruct s; simpl in *. now subst. Qed.

(** Every tail segment keeps the table invariant and extends the
    first-seen order with the segment's valid URLs. *)
Lemma process_part_table (urls : list SourceRef) (part : string) (s : State) (D : list string) :
  table_inv s D ->
  let D' := dedup_from D (marker_urls urls part) in
  exists t, process_part urls part s =
    Done tt (mkState (formatted_text s ++ t) (numbered 1 D') (Z.of_nat (length D') + 1)).
Proof.
  intros Hinv D'. unfold D', marker_urls.
  destruct (parse_marker part) as [nums|] eqn:Hp.
  - eexists. apply (process_part_marker urls part nums s D Hinv Hp).
  - simpl dedup_from. destruct Hinv as [H1 [H2 _]]. rewrite <- H1, <- H2.
    exists ("[" ++ part).
    destruct (contains_char "]" part) eqn:Hc.
    + now apply process_part_parse_error.
    + now apply process_part_no_bracket.
Qed.

Lemma for_each_parts_table (urls : list SourceRef) (parts : list string) :
  forall (s : State) (D : list string),
  table_inv s D ->
  let D' := dedup_from D (parts_urls urls parts) in
  exists t, for_each parts (process_part urls) s =
    Done tt (mkState (formatted_text s ++ t) (numbered 1 D') (Z.of_nat (length D') + 1)).
Proof.
  induction parts as [|p parts IH]; intros s D Hinv D'.
  - exists "". rewrite string_app_nil_r. apply table_inv_numbered in Hinv.
    unfold ret, D'. change (parts_urls urls []) with (@nil string). cbn [dedup_from].
    now rewrite <- Hinv.
  - unfold D', parts_urls. simpl map. simpl concat. rewrite dedup_from_app.
    fold (parts_urls urls parts).
    destruct (process_part_table urls p s D Hinv) as [t1 H1].
    simpl for_each. unfold bind. rewrite H1.
    set (D1 := dedup_from D (marker_urls urls p)).
    assert (Hinv1 : table_inv (mkState (formatted_text s ++ t1) (numbered 1 D1)
                                  (Z.of_nat (length D1) + 1)) D1).
    { repeat split. apply dedup_from_nodup. apply Hinv. }
    destruct (IH _ D1 Hinv1) as [t2 H2]. rewrite H2.
    exists (t1 ++ t2). cbn [formatted_text]. now rewrite string_app_assoc.
Qed.

Lemma init_table_inv (first : string) : table_inv (mkState first [] 1) [].
Proof. repeat split. constructor. Qed.

(** The text loop ends with the first-seen numbering of every valid
    reference of the text. *)
Lemma format_loop_table (text : string) (urls : list SourceRef) :
  let D := dedup (text_urls text urls) in
  exists t, format_loop text urls init_state =
    Done tt (mkState (hd EmptyString (split_char "[" text) ++ t) (numbered 1 D)
               (Z.of_nat (length D) + 1)).
Proof.
  intros D. unfold format_loop. unfold bind at 1. rewrite py_index_head.
  cbv [bind get put].
  destruct (for_each_parts_table urls (tl (split_char "[" text)) _ []
              (init_table_inv (hd EmptyString (split_char "[" text)))) as [t Ht].
  exists t. exact Ht.
Qed.

Lemma for_each_reference_line (refs : list (Z * string)) :
  forall s : State,
  for_each refs reference_line s =
    Done tt (mkState (formatted_text s ++ String.concat "" (map reference_entry refs))
               (references s) (reference_counter s)).
Proof.
  induction refs as [|[k u] refs IH]; intros s.
  - simpl. rewrite string_app_nil_r. now destruct s.
  - simpl for_each. unfold bind. unfold reference_line. rewrite append_text_run.
    rewrite IH. cbn [formatted_text references reference_counter map].
    rewrite <- string_app_assoc. f_equal. f_equal. f_equal.
    destruct refs; simpl; [now rewrite string_app_nil_r | reflexivity].
Qed.

Lemma format_citations_run (text : string) (urls : list SourceRef) :
  format_citations text urls =
    Ok (formatted_text (loop_state text urls) ++
        match references (loop_state text urls) with
        | [] => ""
        | refs => references_heading ++ String.concat "" (map reference_entry refs)
        end).
Proof.
  destruct (format_loop_table text urls) as [t Ht].
  unfold format_citations, loop_state. unfold bind at 1. rewrite Ht.
  cbn [formatted_text references].
  unfold references_list. cbv [bind get]. cbn [references].
  destruct (numbered 1 (dedup (text_urls text urls))) as [|e refs] eqn:Hn.
  - cbv [ret]. now rewrite string_app_nil_r.
  - rewrite append_text_run. cbv beta iota. rewrite for_each_reference_line.
    cbn [formatted_text]. now rewrite string_app_assoc.
Qed.

Lemma loop_state_table (text : string) (urls : list SourceRef) :
  table_inv (loop_state text urls) (dedup (text_urls text urls)).
Proof.
  destruct (format_loop_table text urls) as [t Ht].
  unfold loop_state. rewrite Ht. repeat split.
  apply dedup_from_nodup. constructor.
Qed.

Lemma state_before_table (text : string) (urls : list SourceRef) (pre : list string) :
  table_inv (state_before text urls pre) (dedup (parts_urls urls pre)).
Proof.
  destruct (for_each_parts_table urls pre _ []
              (init_table_inv (hd EmptyString (split_char "[" text)))) as [t Ht].
  unfold state_before. rewrite Ht. repeat split.
  apply dedup_from_nodup. constructor.
Qed.

Lemma parts_urls_app (urls : list SourceRef) (a b : list string) :
  parts_urls urls (a ++ b) = (parts_urls urls a ++ parts_urls urls b)%list.
Proof. unfold parts_urls. now rewrite map_app, concat_app. Qed.

(** Numbers are stable: a URL seen in a prefix of the text keeps the
    number it gets in the first-seen order of the whole text. *)
Lemma assigned_stable (D vs : list string) (u : string) :
  In u D -> assigned u (dedup_from D vs) = assigned u D.
Proof.
  intros H. destruct (dedup_from_prefix D vs) as [X HX].
  unfold assigned. now rewrite HX, position_app.
Qed.

(** ** Claims *)

(** C2: within one call, the table numbers the distinct normalized URLs
    1, 2, ... in first-seen order (one number per URL), and every marker
    with a valid index is rewritten with the number of each of its URLs in
    that order: a repeated URL reuses its number, and a marker with no
    valid reference before it starts with [1]. *)
Theorem citation_numbering (text : string) (urls : list SourceRef) :
  let D := dedup (text_urls text urls) in
  references (loop_state text urls) = numbered 1 D /\ NoDup D /\
  (forall pre part post nums u vs,
     tl (split_char "[" text) = (pre ++ part :: post)%list ->
     parse_marker part = Some nums ->
     valid_urls_of urls nums = u :: vs ->
     exists s', process_part urls part (state_before text urls pre) = Done tt s' /\
       formatted_text s' =
         formatted_text (state_before text urls pre) ++ "[" ++
         join ", " (map (fun u => py_str (assigned u D)) (u :: vs)) ++ "]" ++
         nth 1 (split_char "]" part) EmptyString /\
       (parts_urls urls pre = [] -> assigned u D = 1)).
Proof.
  intros D. destruct (loop_state_table text urls) as [H1 [_ H3]].
  split; [exact H1 | split; [exact H3 |]].
  intros pre part post nums u vs Hsplit Hp Hv.
  pose proof (state_before_table text urls pre) as Hinv.
  set (Dp := dedup (parts_urls urls pre)) in *.
  set (D' := dedup_from Dp (valid_urls_of urls nums)).
  assert (HD : exists X, D = (D' ++ X)%list).
  { unfold D, text_urls. rewrite Hsplit, parts_urls_app.
    change (parts_urls urls (part :: post))
      with (marker_urls urls part ++ parts_urls urls post)%list.
    unfold marker_urls. rewrite Hp.
    unfold dedup. rewrite !dedup_from_app. apply dedup_from_prefix. }
  destruct HD as [X HX].
  eexists. split; [apply (process_part_marker urls part nums _ Dp Hinv Hp)|].
  cbn [formatted_text]. fold D'. rewrite Hv. split.
  - do 3 f_equal. unfold join. f_equal.
    apply map_ext_in. intros w Hw. rewrite HX.
    unfold assigned. rewrite position_app; [reflexivity|].
    apply dedup_from_In. now rewrite Hv.
  - intros Hnil. rewrite HX. unfold assigned. rewrite position_app.
    + unfold D', Dp. rewrite Hnil, Hv. simpl.
      destruct (dedup_from_prefix [u] vs) as [Y HY]. rewrite HY. simpl.
      now rewrite String.eqb_refl.
    + apply dedup_from_In. rewrite Hv. now left.
Qed.

Lemma citation_numbering_witness :
  let text := "Revenue grew [1]. See also [2,1]." in
  let urls := [mkSourceRef "gs://bucket/a.pdf"; mkSourceRef "https://example.com/b"] in
  exists s', process_part urls "2,1]." (state_before text urls ["1]. See also "]) = Done tt s' /\
    formatted_text s' =
      formatted_text (state_before text urls ["1]. See also "]) ++ "[" ++
      join ", " (map (fun u => py_str (assigned u (dedup (text_urls text urls))))
                   ["https://example.com/b"; "https://storage.cloud.google.com/bucket/a.pdf"])
      ++ "]" ++ nth 1 (split_char "]" "2,1].") EmptyString /\
    (parts_urls urls ["1]. See also "] = [] ->
       assigned "https://example.com/b" (dedup (text_urls text urls)) = 1).
Proof.
  intros text urls.
  exact (proj2 (proj2 (citation_numbering text urls)) ["1]. See also "] "2,1]." [] [2; 1]
           "https://example.com/b" ["https://storage.cloud.google.com/bucket/a.pdf"]
           eq_refl eq_refl eq_refl).
Defined.

(** ** Helper lemmas on strings and segments *)

Lemma split_char_absent (c : ascii) (s : string) :
  contains_char c s = false -> split_char c s = [s].
Proof.
  induction s as [|x r IH]; simpl; [reflexivity|].
  intros H. apply orb_false_iff in H as [H1 H2]. rewrite H1, IH by exact H2.
  reflexivity.
Qed.

Lemma split_char_app (c : ascii) (a r : string) :
  contains_char c a = false -> split_char c (a ++ String c r) = a :: split_char c r.
Proof.
  induction a as [|x a IH]; simpl; intros H.
  - now rewrite Ascii.eqb_refl.
  - apply orb_false_iff in H as [H1 H2]. rewrite H1, IH by exact H2. reflexivity.
Qed.

Lemma split_char_join (c : ascii) (s : string) :
  String.concat (String c EmptyString) (split_char c s) = s.
Proof.
  induction s as [|x r IH]; simpl; [reflexivity|].
  pose proof (split_char_not_nil c r) as Hn.
  destruct (Ascii.eqb x c) eqn:E.
  - apply Ascii.eqb_eq in E. subst. simpl.
    destruct (split_char c r) as [|h t]; [contradiction|]. now rewrite <- IH.
  - destruct (split_char c r) as [|h t]; [contradiction|].
    rewrite <- IH. destruct t; reflexivity.
Qed.

(** When the segment holds a single [']'], the marker and the rest of the
    segment give back the segment. *)
Lemma marker_text_single (part : string) :
  length (split_char "]" part) = 2%nat ->
  "[" ++ hd EmptyString (split_char "]" part) ++ "]" ++ nth 1 (split_char "]" part) EmptyString
  = "[" ++ part.
Proof.
  intros H. pose proof (split_char_join "]" part) as J.
  destruct (split_char "]" part) as [|a [|b [|x t]]]; simpl in H; try discriminate.
  simpl in *. now rewrite <- J.
Qed.

Lemma cite_loop_no_valid (urls : list SourceRef) (nums : list Z) :
  forall (cn : list string) (s : State),
  forallb (fun n => negb (valid_index urls n)) nums = true ->
  cite_loop urls nums cn s = Done cn s.
Proof.
  induction nums as [|n nums IH]; intros cn s H; [reflexivity|].
  simpl in H. apply andb_true_iff in H as [Hn H].
  simpl cite_loop. fold (valid_index urls n).
  apply negb_true_iff in Hn. rewrite Hn. unfold bind, ret. now apply IH.
Qed.

(** A parsed marker with no valid index is copied as [[content]] followed
    by the text up to the next [']'] (lines 90-93). *)
Lemma process_part_no_valid (urls : list SourceRef) (part : string) (nums : list Z) (s : State) :
  parse_marker part = Some nums ->
  forallb (fun n => negb (valid_index urls n)) nums = true ->
  process_part urls part s =
    Done tt (mkState (formatted_text s ++ "[" ++ hd EmptyString (split_char "]" part) ++ "]"
                        ++ nth 1 (split_char "]" part) EmptyString)
               (references s) (reference_counter s)).
Proof.
  intros Hp Hv. unfold parse_marker in Hp.
  destruct (contains_char "]" part) eqn:Hc; [|discriminate].
  unfold process_part. rewrite Hc. unfold bind at 1. rewrite py_index_head.
  unfold try_except_ValueError. unfold bind at 1. rewrite mapM_py_int, Hp.
  unfold bind at 1. rewrite (cite_loop_no_valid urls nums [] s Hv).
  pose proof (split_char_contains "]" part Hc) as Hlen.
  unfold bind. rewrite (py_index_in_range _ 1 EmptyString) by lia.
  apply append_text_run.
Qed.














Lemma quote_app (a b : string) : quote (a ++ b) = quote a ++ quote b.
Proof.
  induction a as [|c a IH]; simpl; [reflexivity|].
  rewrite IH. apply string_app_assoc.
Qed.

Lemma unquote_quote_char (c : ascii) (s : string) :
  unquote (quote_char c ++ s) = String c (unquote s).
Proof.
  destruct c as [[] [] [] [] [] [] [] []]; reflexivity.
Qed.

Lemma quote_char_chars (c x : ascii) :
  In x (list_ascii_of_string (quote_char c)) -> quote_safe x = true \/ x = "%"%char.
Proof.
  destruct c as [[] [] [] [] [] [] [] []]; cbn;
    intros H; repeat (destruct H as [H | H]; [subst; (now left) || (now right) |]);
    contradiction.
Qed.

Lemma list_ascii_of_string_app (a b : string) :
  list_ascii_of_string (a ++ b) = (list_ascii_of_string a ++ list_ascii_of_string b)%list.
Proof. induction a as [|c a IH]; simpl; [reflexivity | now rewrite IH]. Qed.

Lemma map_fst_numbered (k : Z) (D : list string) :
  map fst (numbered k D) = map (fun i => k + Z.of_nat i) (seq 0 (length D)).
Proof.
  revert k. induction D as [|u D IH]; intros k; [reflexivity|].
  cbn [numbered map length seq]. rewrite IH. f_equal; [simpl; lia|].
  rewrite <- seq_shift, map_map. apply map_ext. intros i. lia.
Qed.

Lemma length_map_numbered (k : Z) (D : list string) : length (numbered k D) = length D.
Proof. revert k. induction D; intros k; simpl; [reflexivity | now rewrite IHD]. Qed.

Lemma prefix_empty (s : string) : String.prefix "" s = true.
Proof. destruct s; reflexivity. Qed.

Lemma substring_all (r : string) : substring 0 (String.length r) r = r.
Proof. induction r as [|c r IH]; simpl; [reflexivity | now rewrite IH]. Qed.

(** C1: a marker segment keeps only the text up to its second [']']:
    [part.split(']')[1]] drops the rest of the segment. *)
Theorem rewritten_marker_drops_text_after_second_bracket :
  format_citations "See [1] x] y" [mkSourceRef "https://a"]
  = Ok ("See [1] x" ++ references_heading ++ "[1] https://a" ++ nl).
Proof. reflexivity. Qed.

(** C3: the worked example of the spec. *)
Theorem format_citations_revenue_example :
  format_citations "Revenue grew [1]. See also [2,1]."
    [mkSourceRef "gs://bucket/a.pdf"; mkSourceRef "https://example.com/b"]
  = Ok ("Revenue grew [1]. See also [2, 1]." ++ nl ++ nl ++ "**References:**" ++ nl
        ++ "[1] https://storage.cloud.google.com/bucket/a.pdf" ++ nl
        ++ "[2] https://example.com/b" ++ nl).
Proof. reflexivity. Qed.

(** C4: a marker that parses but whose indices are all out of range is
    emitted as [[content]] unchanged, the table is untouched, and a
    segment with a single [']'] is copied byte for byte; the spec's
    example "Bad ref [9]." is returned unchanged. *)
Theorem out_of_range_marker_preserved (urls : list SourceRef) (part : string)
    (nums : list Z) (s : State) :
  parse_marker part = Some nums ->
  forallb (fun n => negb (valid_index urls n)) nums = true ->
  process_part urls part s =
    Done tt (mkState (formatted_text s ++ "[" ++ hd EmptyString (split_char "]" part) ++ "]"
                        ++ nth 1 (split_char "]" part) EmptyString)
               (references s) (reference_counter s)) /\
  (length (split_char "]" part) = 2%nat ->
   "[" ++ hd EmptyString (split_char "]" part) ++ "]" ++ nth 1 (split_char "]" part) EmptyString
   = "[" ++ part) /\
  format_citations "Bad ref [9]." [mkSourceRef "https://x"] = Ok "Bad ref [9].".
Proof.
  intros Hp Hv. split; [exact (process_part_no_valid urls part nums s Hp Hv)|].
  split; [apply marker_text_single | reflexivity].
Qed.

Lemma out_of_range_marker_preserved_witness :
  process_part [mkSourceRef "https://x"] "0, 9]." init_state =
    Done tt (mkState ("" ++ "[" ++ hd EmptyString (split_char "]" "0, 9].") ++ "]"
                        ++ nth 1 (split_char "]" "0, 9].") EmptyString) [] 1) /\
  (length (split_char "]" "0, 9].") = 2%nat ->
   "[" ++ hd EmptyString (split_char "]" "0, 9].") ++ "]"
     ++ nth 1 (split_char "]" "0, 9].") EmptyString = "[" ++ "0, 9].") /\
  format_citations "Bad ref [9]." [mkSourceRef "https://x"] = Ok "Bad ref [9].".
Proof.
  exact (out_of_range_marker_preserved [mkSourceRef "https://x"] "0, 9]." [0; 9] init_state
           eq_refl eq_refl).
Defined.

(** C5: a segment whose bracket content fails [int()] is copied with its
    ['['] and the whole rest of the segment, the table untouched and no
    exception raised; [[abc]] comes out unchanged. *)
Theorem unparsable_marker_preserved (urls : list SourceRef) (part : string) (s : State) :
  contains_char "]" part = true -> parse_marker part = None ->
  process_part urls part s =
    Done tt (mkState (formatted_text s ++ "[" ++ part) (references s) (reference_counter s)) /\
  format_citations "See [abc] here." urls = Ok "See [abc] here.".
Proof.
  intros Hc Hp. split; [now apply process_part_parse_error | reflexivity].
Qed.

Lemma unparsable_marker_preserved_witness :
  process_part [] "1, x] y" init_state = Done tt (mkState ("" ++ "[" ++ "1, x] y") [] 1) /\
  format_citations "See [abc] here." [] = Ok "See [abc] here.".
Proof.
  exact (unparsable_marker_preserved [] "1, x] y" init_state eq_refl eq_refl).
Defined.

(** C6: a text with no valid marker can still lose text: the segment of
    an all-invalid marker is cut at its second [']']. *)
Theorem no_valid_marker_output_not_input :
  format_citations "x [9] a ] b" [] = Ok "x [9] a ".
Proof. reflexivity. Qed.

(** C7: [parse_external_link] keeps the empty string, rewrites exactly
    the case-sensitive prefix [gs://] and keeps every other string. *)
Theorem parse_external_link_spec :
  parse_external_link "" = "" /\
  (forall rest, parse_external_link ("gs://" ++ rest)
                = "https://storage.cloud.google.com/" ++ rest) /\
  (forall url, String.prefix "gs://" url = false -> parse_external_link url = url).
Proof.
  split; [reflexivity | split].
  - intros rest.
    assert (Hsub : substring 5 (String.length ("gs://" ++ rest) - 5) ("gs://" ++ rest) = rest).
    { simpl. rewrite Nat.sub_0_r. apply substring_all. }
    unfold parse_external_link, protocol_of, sub_gs_prefix. rewrite Hsub.
    simpl. now rewrite prefix_empty.
  - intros url H. unfold parse_external_link, protocol_of. rewrite H.
    destruct (String.eqb url ""); reflexivity.
Qed.

(** C8: when the table is non-empty the output ends with a blank line,
    the heading [**References:**] and one line [[n] url] per entry in
    table order, the numbers being 1, 2, ...; the URL is percent-encoded:
    [':'] and ['/'] stay as they are, only safe characters and ['%'] are
    left in the encoding, and decoding it gives the URL back. *)
Theorem references_block_format (text : string) (urls : list SourceRef) :
  references (loop_state text urls) <> [] ->
  format_citations text urls =
    Ok (formatted_text (loop_state text urls) ++ nl ++ nl ++ "**References:**" ++ nl ++
        String.concat ""
          (map (fun '(k, u) => "[" ++ py_str k ++ "] " ++ quote u ++ nl)
               (references (loop_state text urls)))) /\
  map fst (references (loop_state text urls)) =
    map (fun i => Z.of_nat i + 1) (seq 0 (length (references (loop_state text urls)))) /\
  (forall r, quote (":" ++ r) = ":" ++ quote r /\ quote ("/" ++ r) = "/" ++ quote r) /\
  (forall u c, In c (list_ascii_of_string (quote u)) -> quote_safe c = true \/ c = "%"%char) /\
  (forall u, unquote (quote u) = u).
Proof.
  intros Hne. split; [|split; [|split; [|split]]].
  - rewrite format_citations_run.
    destruct (references (loop_state text urls)) as [|e refs]; [contradiction|].
    reflexivity.
  - destruct (loop_state_table text urls) as [H1 _]. rewrite H1, map_fst_numbered.
    rewrite length_map_numbered. apply map_ext. intros i. lia.
  - intros r. split; reflexivity.
  - induction u as [|c u IH]; simpl; [contradiction|].
    intros x Hx. rewrite list_ascii_of_string_app in Hx.
    apply in_app_or in Hx as [Hx | Hx]; [now apply (quote_char_chars c) | now apply IH].
  - induction u as [|c u IH]; [reflexivity|].
    simpl. rewrite unquote_quote_char. now rewrite IH.
Qed.

Lemma references_block_format_witness :
  let text := "Revenue grew [1]. See also [2,1]." in
  let urls := [mkSourceRef "gs://bucket/a.pdf"; mkSourceRef "https://example.com/b"] in
  references (loop_state text urls) <> [] /\
  format_citations text urls =
    Ok (formatted_text (loop_state text urls) ++ nl ++ nl ++ "**References:**" ++ nl ++
        String.concat ""
          (map (fun '(k, u) => "[" ++ py_str k ++ "] " ++ quote u ++ nl)
               (references (loop_state text urls)))).
Proof.
  intros text urls.
  assert (H : references (loop_state text urls) <> []) by (vm_compute; discriminate).
  split; [exact H | exact (proj1 (references_block_format text urls H))].
Defined.

(** C9: [format_citations] never raises: every text and reference list
    give an output string. *)
Theorem format_citations_total (text : string) (urls : list SourceRef) :
  exists out, format_citations text urls = Ok out.
Proof. eexists. apply format_citations_run. Qed.



(** * Further properties of the code *)

(** ** Helper lemmas *)

Lemma loop_state_text (text : string) (urls : list SourceRef) :
  exists t, formatted_text (loop_state text urls) = hd EmptyString (split_char "[" text) ++ t.
Proof.
  destruct (format_loop_table text urls) as [t Ht].
  exists t. unfold loop_state. now rewrite Ht.
Qed.

Lemma dedup_from_In_inv (D vs : list string) (u : string) :
  In u (dedup_from D vs) -> In u D \/ In u vs.
Proof.
  revert D. induction vs as [|v vs IH]; intros D H; simpl in *; [now left|].
  apply IH in H as [H | H]; [|now right; right].
  destruct (existsb (String.eqb v) D); [now left|].
  apply in_app_or in H as [H | [H | []]]; [now left | subst; now right; left].
Qed.

Lemma In_numbered (k k' : Z) (u : string) (D : list string) :
  In (k', u) (numbered k D) -> In u D.
Proof.
  intros H. rewrite <- (map_snd_numbered k D). change u with (snd (k', u)).
  now apply in_map.
Qed.

Lemma concat_empty_cons (a : string) (l : list string) :
  String.concat "" (a :: l) = a ++ String.concat "" l.
Proof. destruct l; simpl; [now rewrite string_app_nil_r | reflexivity]. Qed.

Lemma string_concat_cons (sep h : string) (t : list string) :
  String.concat sep (h :: t) = h ++ String.concat "" (map (fun p => sep ++ p) t).
Proof.
  revert h. induction t as [|x t IH]; intros h.
  - simpl. now rewrite string_app_nil_r.
  - change (String.concat sep (h :: x :: t)) with (h ++ sep ++ String.concat sep (x :: t)).
    rewrite IH. cbn [map]. rewrite concat_empty_cons, !string_app_assoc. reflexivity.
Qed.

Lemma filter_nil_forallb {A} (f : A -> bool) (l : list A) :
  filter f l = [] -> forallb (fun x => negb (f x)) l = true.
Proof.
  induction l as [|x l IH]; simpl; [reflexivity|].
  destruct (f x); [discriminate|]. simpl. exact IH.
Qed.

(** A segment with no valid index and at most one [']'] is copied with its
    ['['] and leaves the table as it is. *)
Lemma process_part_copied (urls : list SourceRef) (part : string) (s : State) :
  marker_urls urls part = [] -> (length (split_char "]" part) <= 2)%nat ->
  process_part urls part s =
    Done tt (mkState (formatted_text s ++ "[" ++ part) (references s) (reference_counter s)).
Proof.
  intros Hm Hl. destruct (contains_char "]" part) eqn:Hc.
  - destruct (parse_marker part) as [nums|] eqn:Hp.
    + unfold marker_urls in Hm. rewrite Hp in Hm.
      unfold valid_urls_of in Hm. apply map_eq_nil in Hm.
      rewrite (process_part_no_valid urls part nums s Hp (filter_nil_forallb _ _ Hm)).
      rewrite marker_text_single; [reflexivity|].
      pose proof (split_char_contains "]" part Hc). lia.
    + now apply process_part_parse_error.
  - now apply process_part_no_bracket.
Qed.

Lemma for_each_copied (urls : list SourceRef) (parts : list string) :
  forall s : State,
  parts_urls urls parts = [] -> Forall (fun p => length (split_char "]" p) <= 2)%nat parts ->
  for_each parts (process_part urls) s =
    Done tt (mkState (formatted_text s ++ String.concat "" (map (fun p => "[" ++ p) parts))
               (references s) (reference_counter s)).
Proof.
  induction parts as [|p parts IH]; intros s Hu Hl.
  - simpl. rewrite string_app_nil_r. now destruct s.
  - unfold parts_urls in Hu. simpl in Hu. apply app_eq_nil in Hu as [Hp Hu].
    inversion Hl as [|? ? Hp1 Hl1]; subst.
    simpl for_each. unfold bind. rewrite (process_part_copied urls p s Hp Hp1).
    rewrite (IH _ Hu Hl1). cbn [formatted_text references reference_counter].
    rewrite <- string_app_assoc. cbn [map]. now rewrite concat_empty_cons.
Qed.

(** ** Properties of [format_citations] and [parse_external_link] *)

(** A text without ['['] is returned unchanged, whatever the references. *)
Theorem text_without_bracket_unchanged (text : string) (urls : list SourceRef) :
  contains_char "[" text = false -> format_citations text urls = Ok text.
Proof.
  intros H. unfold format_citations, format_loop.
  rewrite (split_char_absent _ _ H). reflexivity.
Qed.

Lemma text_without_bracket_unchanged_witness :
  contains_char "[" "Revenue grew 5%." = false /\
  format_citations "Revenue grew 5%." [mkSourceRef "gs://bucket/a.pdf"] = Ok "Revenue grew 5%.".
Proof.
  split; [reflexivity|].
  exact (text_without_bracket_unchanged "Revenue grew 5%." [mkSourceRef "gs://bucket/a.pdf"]
           eq_refl).
Defined.

(** When no index of the text is valid and no segment after a ['[']
    holds more than one [']'], the text is returned unchanged. *)
Theorem no_valid_reference_text_unchanged (text : string) (urls : list SourceRef) :
  text_urls text urls = [] ->
  Forall (fun p => length (split_char "]" p) <= 2)%nat (tl (split_char "[" text)) ->
  format_citations text urls = Ok text.
Proof.
  intros Hu Hl.
  assert (Hloop : format_loop text urls init_state =
    Done tt (mkState (hd EmptyString (split_char "[" text) ++
                      String.concat "" (map (fun p => "[" ++ p) (tl (split_char "[" text))))
               [] 1)).
  { unfold format_loop. unfold bind at 1. rewrite py_index_head. cbv [bind get put].
    exact (for_each_copied urls _ _ Hu Hl). }
  unfold format_citations. unfold bind at 1. rewrite Hloop. cbv [references_list bind get ret].
  cbn [references formatted_text]. f_equal.
  pose proof (split_char_join "[" text) as J.
  pose proof (split_char_not_nil "[" text) as Hn.
  destruct (split_char "[" text) as [|h t]; [contradiction|].
  rewrite string_concat_cons in J. exact J.
Qed.

Lemma no_valid_reference_text_unchanged_witness :
  text_urls "See [0] and [abc] or [x" [mkSourceRef "https://x"] = [] /\
  Forall (fun p => length (split_char "]" p) <= 2)%nat
    (tl (split_char "[" "See [0] and [abc] or [x")) /\
  format_citations "See [0] and [abc] or [x" [mkSourceRef "https://x"]
    = Ok "See [0] and [abc] or [x".
Proof.
  assert (H1 : text_urls "See [0] and [abc] or [x" [mkSourceRef "https://x"] = [])
    by reflexivity.
  assert (H2 : Forall (fun p => length (split_char "]" p) <= 2)%nat
                 (tl (split_char "[" "See [0] and [abc] or [x")))
    by (repeat constructor).
  split; [exact H1 | split; [exact H2 |]].
  exact (no_valid_reference_text_unchanged _ _ H1 H2).
Defined.

(** The References block has one entry per distinct normalized URL among
    the valid indices of the text, each such URL once; it is absent
    exactly when the text has no valid index. *)
Theorem references_are_distinct_valid_urls (text : string) (urls : list SourceRef) :
  length (references (loop_state text urls)) = length (dedup (text_urls text urls)) /\
  (references (loop_state text urls) = [] <-> text_urls text urls = []) /\
  (forall k u, In (k, u) (references (loop_state text urls)) -> In u (text_urls text urls)) /\
  NoDup (map snd (references (loop_state text urls))).
Proof.
  destruct (loop_state_table text urls) as [H1 [_ H3]]. rewrite H1.
  split; [apply length_map_numbered | split; [| split]].
  - split.
    + intros H. destruct (text_urls text urls) as [|u vs] eqn:E; [reflexivity|].
      exfalso. assert (Hin : In u (dedup (u :: vs))) by (apply dedup_from_In; now left).
      destruct (dedup (u :: vs)); [contradiction | discriminate].
    + intros H. now rewrite H.
  - intros k u Hin. apply In_numbered in Hin.
    apply dedup_from_In_inv in Hin as [[] | Hin]. exact Hin.
  - now rewrite map_snd_numbered.
Qed.

(** The text before the first ['['] always starts the output unchanged. *)
Theorem leading_text_preserved (text : string) (urls : list SourceRef) :
  exists rest, format_citations text urls = Ok (hd EmptyString (split_char "[" text) ++ rest).
Proof.
  destruct (loop_state_text text urls) as [t Ht].
  rewrite format_citations_run, Ht. eexists. now rewrite <- string_app_assoc.
Qed.

(** Within one marker, the citation list has one number per valid index,
    in order, and any two valid indices whose references normalize to the
    same URL (a repeated index, or [gs://b/x] beside its public
    [https://storage.cloud.google.com/b/x] form), wherever they stand in
    the marker, are rewritten to the same number. *)
Theorem same_url_same_number_in_marker (urls : list SourceRef) (part : string) (nums : list Z)
    (s : State) (D : list string) :
  table_inv s D -> parse_marker part = Some nums ->
  filter (valid_index urls) nums <> [] ->
  exists cs s', process_part urls part s = Done tt s' /\
    formatted_text s' = formatted_text s ++ "[" ++ join ", " cs ++ "]" ++
                        nth 1 (split_char "]" part) EmptyString /\
    length cs = length (filter (valid_index urls) nums) /\
    (forall p q, (p < length cs)%nat -> (q < length cs)%nat ->
       resolve urls (nth p (filter (valid_index urls) nums) 0) =
       resolve urls (nth q (filter (valid_index urls) nums) 0) ->
       nth p cs EmptyString = nth q cs EmptyString).
Proof.
  intros Hinv Hp Hne.
  pose proof (process_part_marker urls part nums s D Hinv Hp) as H. cbv zeta in H.
  set (D' := dedup_from D (valid_urls_of urls nums)) in H.
  unfold valid_urls_of in H.
  set (f := fun n => py_str (assigned (resolve urls n) D')).
  destruct (filter (valid_index urls) nums) as [|n0 ns] eqn:F; [contradiction|].
  exists (map f (n0 :: ns)). eexists. split; [exact H|].
  split.
  { cbn [formatted_text]. unfold f.
    rewrite <- (map_map (resolve urls) (fun u => py_str (assigned u D'))). reflexivity. }
  split; [apply length_map |].
  intros p q Hp' Hq' Hpq. rewrite length_map in Hp', Hq'.
  assert (G : forall k, (k < length (n0 :: ns))%nat ->
                       nth k (map f (n0 :: ns)) EmptyString = f (nth k (n0 :: ns) 0)).
  { intros k Hk. rewrite (nth_indep (map f (n0 :: ns)) EmptyString (f 0))
      by (now rewrite length_map).
    apply map_nth. }
  rewrite (G p Hp'), (G q Hq'). unfold f. now rewrite Hpq.
Qed.

Lemma same_url_same_number_in_marker_witness :
  let urls := [mkSourceRef "gs://b/x"; mkSourceRef "https://y";
               mkSourceRef "https://storage.cloud.google.com/b/x"] in
  table_inv init_state [] /\ parse_marker "1, 3, 2, 1] end" = Some [1; 3; 2; 1] /\
  filter (valid_index urls) [1; 3; 2; 1] <> [] /\
  exists cs s', process_part urls "1, 3, 2, 1] end" init_state = Done tt s' /\
    formatted_text s' = formatted_text init_state ++ "[" ++ join ", " cs ++ "]" ++
                        nth 1 (split_char "]" "1, 3, 2, 1] end") EmptyString /\
    length cs = length (filter (valid_index urls) [1; 3; 2; 1]) /\
    (forall p q, (p < length cs)%nat -> (q < length cs)%nat ->
       resolve urls (nth p (filter (valid_index urls) [1; 3; 2; 1]) 0) =
       resolve urls (nth q (filter (valid_index urls) [1; 3; 2; 1]) 0) ->
       nth p cs EmptyString = nth q cs EmptyString).
Proof.
  intros urls.
  assert (Hi : table_inv init_state []) by apply (init_table_inv "").
  assert (Hp : parse_marker "1, 3, 2, 1] end" = Some [1; 3; 2; 1]) by reflexivity.
  assert (Hn : filter (valid_index urls) [1; 3; 2; 1] <> []) by discriminate.
  split; [exact Hi | split; [exact Hp | split; [exact Hn |]]].
  exact (same_url_same_number_in_marker urls "1, 3, 2, 1] end" [1; 3; 2; 1] init_state []
           Hi Hp Hn).
Defined.

(** Normalizing twice is normalizing once. *)
Theorem parse_external_link_idempotent (url : string) :
  parse_external_link (parse_external_link url) = parse_external_link url.
Proof.
  unfold parse_external_link at 2 3. unfold protocol_of.
  destruct (String.eqb url "") eqn:E.
  - apply String.eqb_eq in E. subst. reflexivity.
  - destruct (String.prefix "gs://" url) eqn:P.
    + unfold sub_gs_prefix. rewrite P. reflexivity.
    + unfold parse_external_link, protocol_of. rewrite E, P. reflexivity.
Qed.

(** ** Properties of [quote] *)

(** Percent-decoding the quoted URL gives the URL back: [quote] loses
    nothing. *)
Theorem unquote_quote (s : string) : unquote (quote s) = s.
Proof.
  induction s as [|c s IH]; [reflexivity|].
  cbn [quote]. now rewrite unquote_quote_char, IH.
Qed.

(** Every character of a quoted URL is a safe character or ['%']: no
    space, newline or bracket can appear in a References line. *)
Theorem quote_output_safe (s : string) (x : ascii) :
  In x (list_ascii_of_string (quote s)) -> quote_safe x = true \/ x = "%"%char.
Proof.
  induction s as [|c s IH]; [cbn; tauto|].
  cbn [quote]. rewrite list_ascii_of_string_app. intros H.
  apply in_app_or in H as [H | H]; [exact (quote_char_chars c x H) | exact (IH H)].
Qed.

Lemma quote_output_safe_witness :
  In "%"%char (list_ascii_of_string (quote "gs://b/a b.pdf")) /\
  (quote_safe "%" = true \/ "%"%char = "%"%char).
Proof.
  assert (H : In "%"%char (list_ascii_of_string (quote "gs://b/a b.pdf")))
    by (cbn; repeat (solve [left; reflexivity] || right)).
  split; [exact H|].
  exact (quote_output_safe "gs://b/a b.pdf" "%" H).
Defined.

(** A URL made only of safe characters (letters, digits, [_.-~:/]) is
    left unchanged by [quote]. *)
Theorem quote_safe_identity (s : string) :
  forallb quote_safe (list_ascii_of_string s) = true -> quote s = s.
Proof.
  induction s as [|c s IH]; [reflexivity|].
  cbn [list_ascii_of_string forallb quote]. intros H.
  apply andb_prop in H as [Hc Hs]. unfold quote_char. rewrite Hc.
  cbn. now rewrite IH.
Qed.

Lemma quote_safe_identity_witness :
  forallb quote_safe (list_ascii_of_string "https://storage.cloud.google.com/b/x.pdf") = true /\
  quote "https://storage.cloud.google.com/b/x.pdf" = "https://storage.cloud.google.com/b/x.pdf".
Proof.
  split; [reflexivity|].
  apply quote_safe_identity. reflexivity.
Defined.

(** ** Properties of the chat handlers *)

Import App.

Lemma search_calls (st : AppState) (cs : list call) (name text : string)
    (converse : string -> string -> ext Response) :
  calls (search st cs name text converse) = (cs ++ [ConverseConversation name text])%list.
Proof.
  unfold search. destruct (converse name text) as [r|e]; [|reflexivity].
  destruct (summary_references r) as [refs|];
    [destruct (format_citations (summary_text r) refs)|]; reflexivity.
Qed.

Lemma search_state (st : AppState) (cs : list call) (name text : string)
    (converse : string -> string -> ext Response) :
  final_state (search st cs name text converse) = st.
Proof.
  unfold search. destruct (converse name text) as [r|e]; [|reflexivity].
  destruct (summary_references r) as [refs|];
    [destruct (format_citations (summary_text r) refs)|]; reflexivity.
Qed.

Lemma search_sent_length (st : AppState) (cs : list call) (name text : string)
    (converse : string -> string -> ext Response) :
  length (sent (search st cs name text converse)) = 1%nat.
Proof.
  unfold search. destruct (converse name text) as [r|e]; [|reflexivity].
  destruct (summary_references r) as [refs|];
    [destruct (format_citations (summary_text r) refs)|]; reflexivity.
Qed.

Lemma search_returned (st : AppState) (cs : list call) (name text : string)
    (converse : string -> string -> ext Response) (r : Response) :
  converse name text = Returned r ->
  exists c, sent (search st cs name text converse) = [mkMessage c MsgAssistant ["new_conversation"]] /\
    (summary_references r = None -> c = summary_text r) /\
    (forall refs, summary_references r = Some refs -> format_citations (summary_text r) refs = Ok c).
Proof.
  intros H. unfold search. rewrite H.
  destruct (summary_references r) as [refs|] eqn:R.
  - destruct (format_citations (summary_text r) refs) as [c|e] eqn:F.
    + exists c. split; [reflexivity|]. split; [discriminate|].
      intros refs' E. injection E as <-. exact F.
    + rewrite format_citations_run in F. discriminate.
  - exists (summary_text r). split; [reflexivity|]. split; [reflexivity | discriminate].
Qed.

Lemma search_failed (st : AppState) (cs : list call) (name text : string)
    (converse : string -> string -> ext Response) (e : string) :
  converse name text = Failed e ->
  sent (search st cs name text converse) = [mkMessage ("Search failed: " ++ e) MsgError []].
Proof. intros H. unfold search. now rewrite H. Qed.

(** The three shapes of a run of [on_message]. *)
Lemma on_message_shape (text : string) (create : ext string)
    (converse : string -> string -> ext Response) (st : AppState) :
  (exists e, create = Failed e /\
     on_message text create converse st =
       mkOutcome st [CreateConversation]
         [mkMessage ("Failed to initialize conversation: " ++ e) MsgError []]) \/
  (exists st' cs n, (cs = [] \/ cs = [CreateConversation]) /\
     on_message text create converse st = search st' cs n text converse).
Proof.
  unfold on_message.
  destruct (falsy (if falsy (session_conversation st) then global_conversation st
                   else session_conversation st)) eqn:F.
  - destruct create as [n|e].
    + right. exists (mkAppState (Some n) (Some n)), [CreateConversation], n.
      split; [now right | reflexivity].
    + left. now exists e.
  - destruct (if falsy (session_conversation st) then global_conversation st
              else session_conversation st) as [n|]; [|discriminate].
    right. exists st, [], n. split; [now left | reflexivity].
Qed.

Lemma falsy_nonempty (n : string) : n <> "" -> falsy (Some n) = false.
Proof. intros H. cbn. now apply String.eqb_neq. Qed.

(** A non-empty conversation name in the session is used as is: one
    query to that conversation with the user's text, no conversation
    created, and the stored names left unchanged. *)
Theorem on_message_uses_session (text : string) (create : ext string)
    (converse : string -> string -> ext Response) (st : AppState) (n : string) :
  session_conversation st = Some n -> n <> "" ->
  calls (on_message text create converse st) = [ConverseConversation n text] /\
  final_state (on_message text create converse st) = st.
Proof.
  intros Hs Hn. unfold on_message. rewrite Hs, (falsy_nonempty n Hn).
  cbn iota. rewrite (falsy_nonempty n Hn).
  split; [apply search_calls | apply search_state].
Qed.

Lemma on_message_uses_session_witness :
  session_conversation (mkAppState (Some "conv/1") (Some "conv/2")) = Some "conv/1" /\
  "conv/1" <> "" /\
  calls (on_message "hi" (Returned "conv/3") (fun _ _ => Returned (mkResponse "ok" None))
           (mkAppState (Some "conv/1") (Some "conv/2"))) = [ConverseConversation "conv/1" "hi"] /\
  final_state (on_message "hi" (Returned "conv/3") (fun _ _ => Returned (mkResponse "ok" None))
           (mkAppState (Some "conv/1") (Some "conv/2"))) = mkAppState (Some "conv/1") (Some "conv/2").
Proof.
  assert (Hn : "conv/1" <> "") by discriminate.
  split; [reflexivity | split; [exact Hn |]].
  exact (on_message_uses_session "hi" (Returned "conv/3")
           (fun _ _ => Returned (mkResponse "ok" None))
           (mkAppState (Some "conv/1") (Some "conv/2")) "conv/1" eq_refl Hn).
Defined.

(** With no name (or an empty one) in the session, a non-empty global
    name is used; the session is not updated with it. *)
Theorem on_message_falls_back_to_global (text : string) (create : ext string)
    (converse : string -> string -> ext Response) (st : AppState) (g : string) :
  falsy (session_conversation st) = true -> global_conversation st = Some g -> g <> "" ->
  calls (on_message text create converse st) = [ConverseConversation g text] /\
  final_state (on_message text create converse st) = st.
Proof.
  intros Hs Hg Hn. unfold on_message. rewrite Hs, Hg, (falsy_nonempty g Hn).
  split; [apply search_calls | apply search_state].
Qed.

Lemma on_message_falls_back_to_global_witness :
  falsy (session_conversation (mkAppState (Some "") (Some "conv/2"))) = true /\
  global_conversation (mkAppState (Some "") (Some "conv/2")) = Some "conv/2" /\
  "conv/2" <> "" /\
  calls (on_message "hi" (Failed "quota") (fun _ _ => Failed "timeout")
           (mkAppState (Some "") (Some "conv/2"))) = [ConverseConversation "conv/2" "hi"] /\
  final_state (on_message "hi" (Failed "quota") (fun _ _ => Failed "timeout")
           (mkAppState (Some "") (Some "conv/2"))) = mkAppState (Some "") (Some "conv/2").
Proof.
  assert (Hn : "conv/2" <> "") by discriminate.
  split; [reflexivity | split; [reflexivity | split; [exact Hn |]]].
  exact (on_message_falls_back_to_global "hi" (Failed "quota") (fun _ _ => Failed "timeout")
           (mkAppState (Some "") (Some "conv/2")) "conv/2" eq_refl eq_refl Hn).
Defined.

(** With no usable name in the session nor in the global variable, a
    conversation is created, stored in both, and queried. *)
Theorem on_message_creates_when_no_name (text : string) (n : string)
    (converse : string -> string -> ext Response) (st : AppState) :
  falsy (session_conversation st) = true -> falsy (global_conversation st) = true ->
  calls (on_message text (Returned n) converse st) =
    [CreateConversation; ConverseConversation n text] /\
  final_state (on_message text (Returned n) converse st) = mkAppState (Some n) (Some n).
Proof.
  intros Hs Hg. unfold on_message. rewrite Hs, Hg.
  split; [apply search_calls | apply search_state].
Qed.

Lemma on_message_creates_when_no_name_witness :
  falsy (session_conversation (mkAppState None None)) = true /\
  falsy (global_conversation (mkAppState None None)) = true /\
  calls (on_message "hi" (Returned "conv/9") (fun _ _ => Returned (mkResponse "ok" None))
           (mkAppState None None)) = [CreateConversation; ConverseConversation "conv/9" "hi"] /\
  final_state (on_message "hi" (Returned "conv/9") (fun _ _ => Returned (mkResponse "ok" None))
           (mkAppState None None)) = mkAppState (Some "conv/9") (Some "conv/9").
Proof.
  split; [reflexivity | split; [reflexivity |]].
  exact (on_message_creates_when_no_name "hi" "conv/9"
           (fun _ _ => Returned (mkResponse "ok" None)) (mkAppState None None) eq_refl eq_refl).
Defined.

(** If that creation fails, the handler sends one error message and
    stops: no query is made and the stored names are unchanged. *)
Theorem on_message_create_failure (text e : string)
    (converse : string -> string -> ext Response) (st : AppState) :
  falsy (session_conversation st) = true -> falsy (global_conversation st) = true ->
  on_message text (Failed e) converse st =
    mkOutcome st [CreateConversation]
      [mkMessage ("Failed to initialize conversation: " ++ e) MsgError []].
Proof. intros Hs Hg. unfold on_message. now rewrite Hs, Hg. Qed.

Lemma on_message_create_failure_witness :
  falsy (session_conversation (mkAppState None (Some ""))) = true /\
  falsy (global_conversation (mkAppState None (Some ""))) = true /\
  on_message "hi" (Failed "denied") (fun _ _ => Returned (mkResponse "ok" None))
    (mkAppState None (Some "")) =
    mkOutcome (mkAppState None (Some "")) [CreateConversation]
      [mkMessage ("Failed to initialize conversation: " ++ "denied") MsgError []].
Proof.
  split; [reflexivity | split; [reflexivity |]].
  exact (on_message_create_failure "hi" "denied" (fun _ _ => Returned (mkResponse "ok" None))
           (mkAppState None (Some "")) eq_refl eq_refl).
Defined.

(** Every message is answered by exactly one message, and the backend is
    called in one of three ways: one query, one creation, or one creation
    followed by one query. Every query carries the user's text. *)
Theorem on_message_effects (text : string) (create : ext string)
    (converse : string -> string -> ext Response) (st : AppState) :
  length (sent (on_message text create converse st)) = 1%nat /\
  ((exists n, calls (on_message text create converse st) = [ConverseConversation n text]) \/
   calls (on_message text create converse st) = [CreateConversation] \/
   (exists n, calls (on_message text create converse st) =
                [CreateConversation; ConverseConversation n text])).
Proof.
  destruct (on_message_shape text create converse st)
    as [[e [_ ->]] | [st' [cs [n [[-> | ->] ->]]]]].
  - split; [reflexivity | right; now left].
  - split; [apply search_sent_length | left; exists n; apply search_calls].
  - split; [apply search_sent_length | right; right; exists n; apply search_calls].
Qed.

(** When the query succeeds, the reply is sent as an assistant message
    with the single action [new_conversation]; its content is the summary
    with its citations formatted when the reply has references, the raw
    summary otherwise. Formatting never turns a successful reply into an
    error. *)
Theorem on_message_reply (text : string) (create : ext string)
    (converse : string -> string -> ext Response) (st : AppState) (name : string)
    (r : Response) :
  In (ConverseConversation name text) (calls (on_message text create converse st)) ->
  converse name text = Returned r ->
  exists c, sent (on_message text create converse st) =
              [mkMessage c MsgAssistant ["new_conversation"]] /\
    (summary_references r = None -> c = summary_text r) /\
    (forall refs, summary_references r = Some refs -> format_citations (summary_text r) refs = Ok c).
Proof.
  intros Hin Hc.
  destruct (on_message_shape text create converse st)
    as [[e [_ Ho]] | [st' [cs [n [Hcs Ho]]]]]; rewrite Ho in *.
  - destruct Hin as [H | []]. discriminate.
  - rewrite search_calls in Hin.
    assert (n = name) as ->.
    { destruct Hcs as [-> | ->]; cbn in Hin;
        repeat (destruct Hin as [Hin | Hin]; [congruence |]); contradiction. }
    now apply search_returned.
Qed.

Lemma on_message_reply_witness :
  let conv := fun (_ _ : string) =>
                Returned (mkResponse "Revenue grew [1]." (Some [mkSourceRef "gs://b/r.pdf"])) in
  In (ConverseConversation "conv/1" "revenue?")
     (calls (on_message "revenue?" (Failed "unused") conv (mkAppState (Some "conv/1") None))) /\
  exists c, sent (on_message "revenue?" (Failed "unused") conv (mkAppState (Some "conv/1") None)) =
              [mkMessage c MsgAssistant ["new_conversation"]] /\
    (summary_references (mkResponse "Revenue grew [1]." (Some [mkSourceRef "gs://b/r.pdf"])) = None ->
     c = "Revenue grew [1].") /\
    (forall refs, Some [mkSourceRef "gs://b/r.pdf"] = Some refs ->
       format_citations "Revenue grew [1]." refs = Ok c).
Proof.
  intros conv.
  assert (Hin : In (ConverseConversation "conv/1" "revenue?")
     (calls (on_message "revenue?" (Failed "unused") conv (mkAppState (Some "conv/1") None))))
    by (left; reflexivity).
  split; [exact Hin|].
  exact (on_message_reply "revenue?" (Failed "unused") conv (mkAppState (Some "conv/1") None)
           "conv/1" _ Hin eq_refl).
Defined.

(** When the query fails, the error is reported as ["Search failed: "]
    followed by its text. *)
Theorem on_message_search_failure (text : string) (create : ext string)
    (converse : string -> string -> ext Response) (st : AppState) (name e : string) :
  In (ConverseConversation name text) (calls (on_message text create converse st)) ->
  converse name text = Failed e ->
  sent (on_message text create converse st) = [mkMessage ("Search failed: " ++ e) MsgError []].
Proof.
  intros Hin Hc.
  destruct (on_message_shape text create converse st)
    as [[e' [_ Ho]] | [st' [cs [n [Hcs Ho]]]]]; rewrite Ho in *.
  - destruct Hin as [H | []]. discriminate.
  - rewrite search_calls in Hin.
    assert (n = name) as ->.
    { destruct Hcs as [-> | ->]; cbn in Hin;
        repeat (destruct Hin as [Hin | Hin]; [congruence |]); contradiction. }
    now apply search_failed.
Qed.

Lemma on_message_search_failure_witness :
  In (ConverseConversation "conv/5" "q")
     (calls (on_message "q" (Returned "conv/5") (fun _ _ => Failed "503")
               (mkAppState None None))) /\
  sent (on_message "q" (Returned "conv/5") (fun _ _ => Failed "503") (mkAppState None None)) =
    [mkMessage ("Search failed: " ++ "503") MsgError []].
Proof.
  assert (Hin : In (ConverseConversation "conv/5" "q")
     (calls (on_message "q" (Returned "conv/5") (fun _ _ => Failed "503")
               (mkAppState None None)))) by (right; left; reflexivity).
  split; [exact Hin|].
  exact (on_message_search_failure "q" (Returned "conv/5") (fun _ _ => Failed "503")
           (mkAppState None None) "conv/5" "503" Hin eq_refl).
Defined.

(** After a successful [on_chat_start] or [new_conversation] action that
    returned a non-empty name, the next message queries that conversation
    without creating another one, whatever was stored before. *)
Theorem start_then_message (n text : string) (create : ext string)
    (converse : string -> string -> ext Response) (st : AppState) :
  n <> "" ->
  calls (on_message text create converse (final_state (on_chat_start (Returned n) st))) =
    [ConverseConversation n text] /\
  calls (on_message text create converse (final_state (on_new_conversation (Returned n) st))) =
    [ConverseConversation n text].
Proof.
  intros Hn. cbn [on_chat_start on_new_conversation final_state].
  unfold on_message. cbn [session_conversation]. rewrite (falsy_nonempty n Hn).
  cbn iota. rewrite (falsy_nonempty n Hn).
  split; apply search_calls.
Qed.

Lemma start_then_message_witness :
  "conv/7" <> "" /\
  calls (on_message "hi" (Returned "conv/8") (fun _ _ => Returned (mkResponse "ok" None))
           (final_state (on_chat_start (Returned "conv/7") (mkAppState (Some "old") (Some "old"))))) =
    [ConverseConversation "conv/7" "hi"] /\
  calls (on_message "hi" (Returned "conv/8") (fun _ _ => Returned (mkResponse "ok" None))
           (final_state (on_new_conversation (Returned "conv/7")
                           (mkAppState (Some "old") (Some "old"))))) =
    [ConverseConversation "conv/7" "hi"].
Proof.
  assert (Hn : "conv/7" <> "") by discriminate.
  split; [exact Hn|].
  exact (start_then_message "conv/7" "hi" (Returned "conv/8")
           (fun _ _ => Returned (mkResponse "ok" None)) (mkAppState (Some "old") (Some "old")) Hn).
Defined.

(** The global name is shared between sessions: when one session started
    a conversation and another session's own start failed, the second
    session's messages are sent to the first session's conversation. *)
Theorem failed_start_uses_other_session_conversation (n e text : string) (create : ext string)
    (converse : string -> string -> ext Response) (st1 : AppState) :
  n <> "" ->
  let g := global_conversation (final_state (on_chat_start (Returned n) st1)) in
  let st2 := final_state (on_chat_start (Failed e) (mkAppState None g)) in
  calls (on_message text create converse st2) = [ConverseConversation n text] /\
  final_state (on_message text create converse st2) = mkAppState None (Some n).
Proof.
  intros Hn. cbn zeta. cbn [on_chat_start final_state global_conversation].
  unfold on_message. cbn [session_conversation global_conversation].
  change (falsy None) with true. cbv iota.
  rewrite (falsy_nonempty n Hn).
  split; [apply search_calls | apply search_state].
Qed.

Lemma failed_start_uses_other_session_conversation_witness :
  "conv/A" <> "" /\
  calls (on_message "hi" (Returned "conv/B") (fun _ _ => Returned (mkResponse "ok" None))
           (final_state (on_chat_start (Failed "quota")
              (mkAppState None (global_conversation
                 (final_state (on_chat_start (Returned "conv/A") (mkAppState None None)))))))) =
    [ConverseConversation "conv/A" "hi"] /\
  final_state (on_message "hi" (Returned "conv/B") (fun _ _ => Returned (mkResponse "ok" None))
           (final_state (on_chat_start (Failed "quota")
              (mkAppState None (global_conversation
                 (final_state (on_chat_start (Returned "conv/A") (mkAppState None None)))))))) =
    mkAppState None (Some "conv/A").
Proof.
  assert (Hn : "conv/A" <> "") by discriminate.
  split; [exact Hn|].
  exact (failed_start_uses_other_session_conversation "conv/A" "quota" "hi" (Returned "conv/B")
           (fun _ _ => Returned (mkResponse "ok" None)) (mkAppState None None) Hn).
Defined.
